(** * pysteps.extrapolation.interface: a shallow embedding

    The Python module [pysteps/extrapolation/interface.py] registers the
    extrapolation methods of pysteps under their names and resolves a name
    to a callable with [get_method].  This file embeds the module in Rocq:

    - Python exceptions are values of [exn]; code that can raise runs in a
      state-and-error monad [StateErr];
    - numpy arrays live in a heap ([gmap loc ndarray]) and are passed by
      reference, so that "the input is not modified" is a statement about
      the heap;
    - the module-level dictionary [_extrapolation_methods] is an
      insertion-ordered association list (its key order shows in the error
      message of [get_method]);
    - [semilagrangian.extrapolate] is imported by the module but defined
      elsewhere; it is modelled from the specification in
      [Module Semilagrangian]. *)

From Stdlib Require Import ZArith QArith Qcanon Qround Lia Ascii String.
From stdpp Require Import base tactics option list strings pretty gmap numbers.

Local Open Scope Z_scope.

(** ** Python values *)

(** Array elements.  numpy holds float64; the embedding computes with exact
    rationals, so rounding, NaN and the infinities are not represented. *)
Abbreviation pixel := Qc.

(** Hashable values used as dictionary keys and as the [name] argument of
    [get_method]: [None], a [str], or (to have a non-textual, non-None
    value) an [int]. *)
Inductive key : Type :=
| KNone
| KStr (s : string)
| KInt (z : Z).

#[global] Instance key_eq_dec : EqDecision key.
Proof. solve_decision. Defined.

(** Scalar values passed as keyword arguments. *)
Inductive pyval : Type :=
| VNone
| VBool (b : bool)
| VInt (z : Z)
| VFloat (q : Qc)
| VStr (s : string).

(** Python truth value testing, as done by [not x] and [if x]. *)
Definition truthy (v : pyval) : bool :=
  match v with
  | VNone => false
  | VBool b => b
  | VInt z => negb (z =? 0)
  | VFloat q => negb (bool_decide (q = 0%Qc))
  | VStr s => negb (bool_decide (s = ""%string))
  end.

(** Keyword arguments [**kwargs]: a dict with string keys. *)
Abbreviation kwargs_t := (gmap string pyval).

(** [kwargs.get(k, default)] *)
Definition dict_get (kwargs : kwargs_t) (k : string) (default : pyval) : pyval :=
  match kwargs !! k with
  | Some v => v
  | None => default
  end.

(** ** Exceptions and the state-and-error monad *)

Inductive exn : Type :=
(* raised by the Python code and by numpy *)
| KeyError (k : key)
| ValueError (msg : string)
| IndexError (msg : string)
| TypeError (msg : string)
(* the error taxonomy of the specification, section 7 *)
| InvalidArgumentError (arg : string)
| ShapeMismatchError
| InvalidOptionError (opt : string) (accepted : list string).

Inductive result (A : Type) : Type :=
| Ok (x : A)
| Raise (e : exn).
Arguments Ok {A} x.
Arguments Raise {A} e.

Definition StateErr (S A : Type) : Type := S → S * result A.

#[global] Instance StateErr_ret {S} : MRet (StateErr S) :=
  λ A x s, (s, Ok x).

#[global] Instance StateErr_bind {S} : MBind (StateErr S) :=
  λ A B f m s,
    match m s with
    | (s', Ok x) => f x s'
    | (s', Raise e) => (s', Raise e)
    end.

Definition raise {S A} (e : exn) : StateErr S A := λ s, (s, Raise e).

(** Read the whole state. *)
Definition get_state {S} : StateErr S S := λ s, (s, Ok s).

(** Lift a pure, fallible computation. *)
Definition lift {S A} (r : result A) : StateErr S A := λ s, (s, r).

(** [try: body except KeyError: handler] *)
Definition try_except_KeyError {S A}
    (body : StateErr S A) (handler : StateErr S A) : StateErr S A :=
  λ s,
    match body s with
    | (s', Raise (KeyError _)) => handler s'
    | r => r
    end.

(** ** Strings *)

Module Str.

(** [str.lower] on the ASCII range: 'A'..'Z' go to 'a'..'z', every other
    byte is kept. *)
Definition lower_ascii (c : ascii) : ascii :=
  let n := nat_of_ascii c in
  if ((65 <=? n) && (n <=? 90))%nat then ascii_of_nat (n + 32) else c.

Fixpoint lower (s : string) : string :=
  match s with
  | EmptyString => EmptyString
  | String c s' => String (lower_ascii c) (lower s')
  end.

(** [sep.join(l)] *)
Fixpoint join (sep : string) (l : list string) : string :=
  match l with
  | [] => ""
  | [x] => x
  | x :: l' => x +:+ sep +:+ join sep l'
  end.


Definition newline : string := String (ascii_of_nat 10) EmptyString.

End Str.

(** [str(k)], as used by ["{}".format(k)]. *)
Definition str_key (k : key) : string :=
  match k with
  | KNone => "None"
  | KStr s => s
  | KInt z => pretty z
  end.

(** [repr(k)], as used by [str] of a list.  For a string this is the string
    between single quotes; that is Python's [repr] for strings without
    quotes, backslashes and non-printable characters. *)
Definition repr_key (k : key) : string :=
  match k with
  | KStr s => "'" +:+ s +:+ "'"
  | _ => str_key k
  end.

(** [str(l)] for a list of keys. *)
Definition str_list (l : list key) : string :=
  "[" +:+ Str.join ", " (repr_key <$> l) +:+ "]".

(** ** Insertion-ordered dictionaries *)

Module Dict.
Section dict.
Context {V : Type}.

Definition t : Type := list (key * V).

(** [dict()] *)
Definition empty : t := [].

(** [d[k] = v]: replaces the value of an existing key in place, appends
    a new key at the end. *)
Fixpoint setitem (d : t) (k : key) (v : V) : t :=
  match d with
  | [] => [(k, v)]
  | (k', v') :: d' =>
      if decide (k' = k) then (k, v) :: d' else (k', v') :: setitem d' k v
  end.

Fixpoint lookup (d : t) (k : key) : option V :=
  match d with
  | [] => None
  | (k', v') :: d' => if decide (k' = k) then Some v' else lookup d' k
  end.

(** [d[k]] : raises [KeyError] for a missing key. *)
Definition getitem (d : t) (k : key) : result V :=
  match lookup d k with
  | Some v => Ok v
  | None => Raise (KeyError k)
  end.

(** [list(d.keys())] *)
Definition keys (d : t) : list key := fst <$> d.
End dict.
Arguments t : clear implicits.
End Dict.

(** ** numpy arrays *)

Module Numpy.

(** An [ndarray]: its shape and its elements in row-major (C) order. *)
Record ndarray : Type := mk_ndarray { shape : list nat; data : list pixel }.

(** Number of elements of an array of the given shape. *)
Definition size_of (sh : list nat) : nat := foldr Nat.mul 1%nat sh.

(** Well-formed arrays hold as many elements as their shape says. *)
Definition wf (a : ndarray) : Prop := length (data a) = size_of (shape a).

(** Arrays are objects on a heap, held by reference. *)
Definition loc : Type := positive.
Abbreviation heap := (gmap loc ndarray).

(** A new array object. *)
Definition alloc (a : ndarray) : StateErr heap loc :=
  λ h, let l := fresh (dom h) in (<[l := a]> h, Ok l).

(** The array behind a reference.  The heap holds the arrays only: a
    reference to anything else is an object that cannot be indexed. *)
Definition load (l : loc) : StateErr heap ndarray :=
  λ h,
    match h !! l with
    | Some a => (h, Ok a)
    | None => (h, Raise (TypeError "object is not subscriptable"))
    end.

(** [a[np.newaxis, :, :]]: a view of [a] with a new leading axis of length
    one; indexing two axes needs an array of at least two dimensions. *)
Definition getitem_newaxis_2 (a : ndarray) : result ndarray :=
  if (length (shape a) <? 2)%nat
  then Raise (IndexError "too many indices for array")
  else Ok {| shape := 1%nat :: shape a; data := data a |}.

(** The elements of the [i]-th sub-array along axis 0, each sub-array
    having [k] elements. *)
Definition block (k : nat) (d : list pixel) (i : nat) : list pixel :=
  take k (drop (i * k) d).

(** [a[i]] for a non-negative [i]. *)
Definition getitem (a : ndarray) (i : nat) : option ndarray :=
  match shape a with
  | [] => None
  | n0 :: rest =>
      if (i <? n0)%nat
      then Some {| shape := rest; data := block (size_of rest) (data a) i |}
      else None
  end.

(** [np.repeat(a, repeats, axis=0)] for an integer [repeats]: every
    sub-array along axis 0 is repeated [repeats] times in a row. *)
Definition repeat_axis0 (a : ndarray) (repeats : Z) : result ndarray :=
  match shape a with
  | [] => Raise (ValueError "axis 0 is out of bounds for array of dimension 0")
  | n0 :: rest =>
      if repeats <? 0
      then Raise (ValueError "repeats may not contain negative values.")
      else
        let r := Z.to_nat repeats in
        let k := size_of rest in
        Ok {| shape := (n0 * r)%nat :: rest;
              data := mjoin ((λ i, mjoin (replicate r (block k (data a) i)))
                               <$> seq 0 n0) |}
  end.

(** [np.repeat(a, repeats, axis=0)] returns a new array object. *)
Definition np_repeat (a : ndarray) (repeats : Z) : StateErr heap loc :=
  r ← lift (repeat_axis0 a repeats); alloc r.

(** The array [np.zeros(sh)]. *)
Definition zeros (sh : list nat) : ndarray :=
  {| shape := sh; data := replicate (size_of sh) 0%Qc |}.


(** [np.zeros(sh)] returns a new array object. *)
Definition np_zeros (sh : list nat) : StateErr heap loc := alloc (zeros sh).

End Numpy.

(** What an extrapolation method returns: [None], one array, or a pair of
    arrays. *)
Inductive retval : Type :=
| RNone
| RArray (a : Numpy.loc)
| RTuple (a d : Numpy.loc).

(** ** The semi-Lagrangian extrapolator *)

Module Semilagrangian.
Import Numpy.
Local Open Scope Qc_scope.

(** Modelled from the spec: the module [pysteps.extrapolation.semilagrangian]
    is imported by the interface but its source is absent.  The recognized
    options of section 4.3, as the explicit configuration structure of
    section 9. *)
Record Options : Type := mk_Options {
  subSteps : Z;
  interpolationOrder : string;
  returnDisplacement : bool;
  allowExtrapolationOutsideGrid : bool
}.


(** Modelled from the spec: the two resampling methods. *)
Inductive interpolation : Type := Nearest | Bilinear.

(** Modelled from the spec: [interpolationOrder] is one of {nearest,
    bilinear}; any other value is not recognized. *)
Definition parse_interpolation (s : string) : option interpolation :=
  if decide (s = "nearest"%string) then Some Nearest
  else if decide (s = "bilinear"%string) then Some Bilinear
  else None.

(** Modelled from the spec: a coordinate clamped to the valid extent
    [[0, n-1]] of an axis of length [n]. *)
Definition clamp (n : nat) (q : Qc) : Qc :=
  let hi := Qc_of_Z (Z.of_nat n - 1) in
  if decide (q < 0) then 0 else if decide (hi < q) then hi else q.

(** Modelled from the spec: a cell index clamped to the nearest valid
    cell. *)
Definition clamp_index (n : nat) (i : Z) : Z :=
  Z.max 0 (Z.min (Z.of_nat n - 1) i).

(** Modelled from the spec: the closest integer of a coordinate. *)
Definition round (q : Qc) : Z := Qfloor (q + Q2Qc (1 # 2)).

Section grid.
Variables rows cols : nat.

(** Modelled from the spec: the cell [(i, j)] of a grid stored in row-major
    order. *)
Definition at_ (g : list pixel) (i j : nat) : pixel :=
  default 0 (g !! (i * cols + j)%nat).

(** Modelled from the spec: whether a continuous coordinate lies in the
    valid extent [[0, rows-1] x [0, cols-1]]. *)
Definition inside (y x : Qc) : bool :=
  bool_decide (0 ≤ y ∧ y ≤ Qc_of_Z (Z.of_nat rows - 1) ∧
               0 ≤ x ∧ x ≤ Qc_of_Z (Z.of_nat cols - 1)).

(** Modelled from the spec: the value of the cell at integer position
    [(i, j)]; a cell outside the grid takes the fill value [fill] when there
    is one, and the value of the nearest valid cell otherwise. *)
Definition cell (g : list pixel) (fill : option pixel) (i j : Z) : pixel :=
  if bool_decide ((0 ≤ i < Z.of_nat rows)%Z ∧ (0 ≤ j < Z.of_nat cols)%Z)
  then at_ g (Z.to_nat i) (Z.to_nat j)
  else
    match fill with
    | Some v => v
    | None => at_ g (Z.to_nat (clamp_index rows i)) (Z.to_nat (clamp_index cols j))
    end.

(** Modelled from the spec: bilinear interpolation, the average of the four
    surrounding cells weighted by proximity along each axis. *)
Definition bilinear (g : list pixel) (fill : option pixel) (y x : Qc) : pixel :=
  let i0 := Qfloor y in
  let j0 := Qfloor x in
  let fy := y - Qc_of_Z i0 in
  let fx := x - Qc_of_Z j0 in
  (1 - fy) * (1 - fx) * cell g fill i0 j0
  + (1 - fy) * fx * cell g fill i0 (j0 + 1)
  + fy * (1 - fx) * cell g fill (i0 + 1) j0
  + fy * fx * cell g fill (i0 + 1) (j0 + 1).

(** Modelled from the spec: nearest-neighbour resampling rounds the
    coordinate to the closest integer cell. *)
Definition nearest (g : list pixel) (fill : option pixel) (y x : Qc) : pixel :=
  cell g fill (round y) (round x).

(** Modelled from the spec: resampling with the selected interpolation
    order. *)
Definition interpolate (order : interpolation) :
    list pixel → option pixel → Qc → Qc → pixel :=
  match order with
  | Nearest => nearest
  | Bilinear => bilinear
  end.

(** Modelled from the spec: velocity is sampled by bilinear interpolation at
    the position clamped to the valid domain, whatever the options say. *)
Definition sample_velocity (g : list pixel) (y x : Qc) : Qc :=
  bilinear g None (clamp rows y) (clamp cols x).

(** Modelled from the spec: the output cells, in row-major order. *)
Definition cells : list (nat * nat) :=
  i ← seq 0 rows; (λ j, (i, j)) <$> seq 0 cols.

(** Modelled from the spec: the continuous position [(y, x)] of a
    trajectory: the output cell plus its cumulative offset [(dy, dx)]. *)
Definition position (c : nat * nat) (o : Qc * Qc) : Qc * Qc :=
  (Qc_of_Z (Z.of_nat c.1) + o.1, Qc_of_Z (Z.of_nat c.2) + o.2).

(** Modelled from the spec: one backward sub-step of every trajectory: the
    velocity sampled at the current position, scaled by [1 / subSteps], is
    subtracted. [vx] and [vy] are the x- and y-components of the velocity. *)
Definition substep (vx vy : list pixel) (k : Z) (offs : list (Qc * Qc)) :
    list (Qc * Qc) :=
  zip_with
    (λ c o,
       let '(y, x) := position c o in
       (o.1 - sample_velocity vy y x / Qc_of_Z k,
        o.2 - sample_velocity vx y x / Qc_of_Z k))
    cells offs.

(** Modelled from the spec: the original input field resampled at the source
    coordinate of one trajectory (steps 3 and 4 of the algorithm). *)
Definition resample (f : list pixel) (order : interpolation) (allow : bool)
    (outsideValue : pixel) (c : nat * nat) (o : Qc * Qc) : pixel :=
  let '(y, x) := position c o in
  if allow then
    if inside y x then interpolate order f (Some outsideValue) y x
    else outsideValue
  else interpolate order f None (clamp rows y) (clamp cols x).

(** Modelled from the spec: the output timesteps: for each of the [n]
    timesteps, [subSteps] sub-steps, then the resampled field and the
    accumulated offsets. *)
Fixpoint timesteps (f vx vy : list pixel) (order : interpolation)
    (allow : bool) (outsideValue : pixel) (k : Z) (n : nat)
    (offs : list (Qc * Qc)) : list (list pixel * list (Qc * Qc)) :=
  match n with
  | O => []
  | S n' =>
      let offs' := Nat.iter (Z.to_nat k) (substep vx vy k) offs in
      (zip_with (resample f order allow outsideValue) cells offs', offs')
        :: timesteps f vx vy order allow outsideValue k n' offs'
  end.

End grid.

(** Modelled from the spec: the displacement entry of one timestep: the dx
    grid, then the dy grid. *)
Definition displacement_entry (offs : list (Qc * Qc)) : list pixel :=
  (snd <$> offs) ++ (fst <$> offs).

(** Modelled from the spec: the public contract
    [extrapolate(field, velocity, numTimesteps, outsideValue, options)] of
    section 4.3.  Shapes and argument ranges are validated before anything is
    computed; the result is a new array of shape (numTimesteps, rows, cols)
    and, when [returnDisplacement] is set, a second one of shape
    (numTimesteps, 2, rows, cols). *)
Definition extrapolate (field velocity : loc) (numTimesteps : Z)
    (outsideValue : pixel) (options : Options) : StateErr heap retval :=
  f ← load field;
  v ← load velocity;
  match shape f with
  | [rows; cols] =>
      if negb (bool_decide (shape v = [2%nat; rows; cols]))
      then raise ShapeMismatchError
      else if (numTimesteps <? 1)%Z
      then raise (InvalidArgumentError "numTimesteps")
      else if (subSteps options <? 1)%Z
      then raise (InvalidArgumentError "subSteps")
      else
        match parse_interpolation (interpolationOrder options) with
        | None =>
            raise (InvalidOptionError "interpolationOrder" ["nearest"; "bilinear"])
        | Some order =>
            let vx := block (rows * cols) (data v) 0 in
            let vy := block (rows * cols) (data v) 1 in
            let steps :=
              timesteps rows cols (data f) vx vy order
                (allowExtrapolationOutsideGrid options) outsideValue
                (subSteps options) (Z.to_nat numTimesteps)
                (replicate (rows * cols) (0, 0)) in
            out ← alloc {| shape := [Z.to_nat numTimesteps; rows; cols];
                           data := mjoin (fst <$> steps) |};
            if returnDisplacement options then
              d ← alloc {| shape := [Z.to_nat numTimesteps; 2%nat; rows; cols];
                           data := mjoin (displacement_entry ∘ snd <$> steps) |};
              mret (RTuple out d)
            else mret (RArray out)
        end
  | _ => raise ShapeMismatchError
  end.

End Semilagrangian.

(** ** The interface module *)

Module Interface.
Import Numpy.

(** A function object of the module.  The registered functions are defined
    with two parameter lists:
    [def f(precip, velocity, num_timesteps, **kwargs)] in this module, and
    the contract [extrapolate(field, velocity, numTimesteps, outsideValue,
    options)] of the semi-Lagrangian extrapolator. *)
Inductive callable : Type :=
| Fun_kwargs (f : loc → loc → Z → kwargs_t → StateErr heap retval)
| Fun_options
    (f : loc → loc → Z → pixel → Semilagrangian.Options → StateErr heap retval).

(** [eulerian_persistence(precip, velocity, num_timesteps, **kwargs)] *)
Definition eulerian_persistence (precip velocity : loc) (num_timesteps : Z)
    (kwargs : kwargs_t) : StateErr heap retval :=
  (* del velocity *)
  let return_displacement :=
    dict_get kwargs "return_displacement" (VBool false) in
  p ← load precip;
  view ← lift (getitem_newaxis_2 p);
  extrapolated_precip ← np_repeat view num_timesteps;
  if negb (truthy return_displacement) then
    mret (RArray extrapolated_precip)
  else
    e ← load extrapolated_precip;
    z ← np_zeros (2%nat :: shape e);
    mret (RTuple extrapolated_precip z).

(** The array of extrapolated fields in what an extrapolation method
    returns: the array itself, or the first component of the pair. *)
Definition extrapolated (r : retval) : option loc :=
  match r with
  | RNone => None
  | RArray a => Some a
  | RTuple a _ => Some a
  end.

(** [_do_nothing(precip, velocity, num_timesteps, **kwargs)] *)
Definition _do_nothing (precip velocity : loc) (num_timesteps : Z)
    (kwargs : kwargs_t) : StateErr heap retval :=
  (* del precip, velocity, num_timesteps, kwargs *)
  mret RNone.

(** The module-level dictionary, after the module is loaded. *)
Definition _extrapolation_methods : Dict.t callable :=
  let d := Dict.empty in
  let d := Dict.setitem d (KStr "eulerian") (Fun_kwargs eulerian_persistence) in
  let d := Dict.setitem d (KStr "semilagrangian")
             (Fun_options Semilagrangian.extrapolate) in
  let d := Dict.setitem d KNone (Fun_kwargs _do_nothing) in
  d.

(** [isinstance(name, str)] *)
Definition isinstance_str (name : key) : bool :=
  match name with
  | KStr _ => true
  | _ => false
  end.

(** [name.lower()], for a [name] that is a string. *)
Definition lower (name : key) : key :=
  match name with
  | KStr s => KStr (Str.lower s)
  | _ => name
  end.

(** [get_method(name)].  The state is the module-level dictionary
    [_extrapolation_methods]. *)
Definition get_method (name : key) : StateErr (Dict.t callable) callable :=
  let name := if isinstance_str name then lower name else name in
  try_except_KeyError
    (methods ← get_state;
     lift (Dict.getitem methods name))
    (methods ← get_state;
     raise (ValueError ("Unknown method " +:+ str_key name +:+ Str.newline
                        +:+ "The available methods are:"
                        +:+ str_list (Dict.keys methods)))).

End Interface.

(** ** Sample inputs *)

Module Sample.
Import Numpy.

(** A 2 x 2 precipitation field. *)
Definition field : ndarray :=
  {| shape := [2; 2]%nat; data := Qc_of_Z <$> [1; 2; 3; 4] |}.

(** A velocity field at rest, for a 2 x 2 grid. *)
Definition still : ndarray := zeros [2; 2; 2]%nat.

(** A heap with the field at reference 1 and the velocity at reference 2. *)
Definition heap0 : heap := <[2%positive := still]> (<[1%positive := field]> ∅).

(** Keyword arguments asking for the displacement. *)
Definition with_displacement : kwargs_t :=
  <["return_displacement" := VBool true]> ∅.

End Sample.

(** ** Heaps of well-formed arrays, and more sample inputs *)

Module Fixture.
Import Numpy.

(** Every array on the heap is well-formed. *)
Definition heap_wf (h : heap) : Prop := map_Forall (λ _ a, wf a) h.

(** A one-dimensional array. *)
Definition profile : ndarray :=
  {| shape := [3]%nat; data := Qc_of_Z <$> [5; 6; 7] |}.

(** The sample heap with the one-dimensional array at reference 3. *)
Definition heap1 : heap := <[3%positive := profile]> Sample.heap0.

(** Keyword arguments with the string "False" for the displacement. *)
Definition string_false : kwargs_t :=
  <["return_displacement" := VStr "False"]> ∅.

End Fixture.

(** * Properties *)

Import Numpy Interface.

(** ** Arrays and the heap *)

Lemma block_mjoin_replicate (d : list pixel) (k N t : nat) :
  length d = k → (t < N)%nat → block k (mjoin (replicate N d)) t = d.
Proof.
  intros Hk. revert t. induction N as [|N IH]; intros t Ht; [lia|].
  unfold block in *. cbn [replicate mjoin list_join].
  destruct t as [|t].
  - rewrite Nat.mul_0_l, drop_0. subst k. by rewrite take_app_length.
  - replace (S t * k)%nat with (length d + t * k)%nat by lia.
    rewrite drop_app_add. apply IH. lia.
Qed.



Lemma repeat_axis0_view (p : ndarray) (N : Z) :
  0 ≤ N → wf p →
  repeat_axis0 {| shape := 1%nat :: shape p; data := data p |} N =
  Ok {| shape := Z.to_nat N :: shape p;
        data := mjoin (replicate (Z.to_nat N) (data p)) |}.
Proof.
  intros HN Hwf. unfold repeat_axis0. cbn [shape data].
  destruct (Z.ltb_spec N 0); [lia|].
  f_equal. f_equal.
  - f_equal. lia.
  - cbn [seq fmap list_fmap mjoin list_join]. rewrite app_nil_r. unfold block.
    rewrite Nat.mul_0_l, drop_0. rewrite <- Hwf, take_ge; done.
Qed.

(** The sub-arrays of [N] copies of a field along axis 0. *)
Lemma getitem_copies (F : ndarray) (N t : nat) :
  wf F →
  getitem {| shape := N :: shape F; data := mjoin (replicate N (data F)) |} t
  = if (t <? N)%nat then Some F else None.
Proof.
  intros Hwf. unfold getitem. cbn [shape data].
  destruct (Nat.ltb_spec t N); [|done].
  rewrite block_mjoin_replicate by done. by destruct F.
Qed.

Lemma fresh_lookup (h : heap) : h !! fresh (dom h) = None.
Proof. apply not_elem_of_dom, is_fresh. Qed.

Lemma alloc_preserves (h : heap) (a : ndarray) (l : loc) (x : ndarray) :
  h !! l = Some x → <[fresh (dom h) := a]> h !! l = Some x.
Proof.
  intros Hl. rewrite lookup_insert_ne; [done|].
  intros <-. by rewrite fresh_lookup in Hl.
Qed.

(** ** Eulerian persistence *)

(** What a call of [eulerian_persistence] does on a heap where [precip] is
    a well-formed array of at least two dimensions. *)
Lemma eulerian_persistence_run (h : heap) precip velocity N kw p :
  h !! precip = Some p → (2 ≤ length (shape p))%nat → wf p → 0 ≤ N →
  let e := {| shape := Z.to_nat N :: shape p;
              data := mjoin (replicate (Z.to_nat N) (data p)) |} in
  let out := fresh (dom h) in
  let h1 := <[out := e]> h in
  eulerian_persistence precip velocity N kw h =
    if truthy (dict_get kw "return_displacement" (VBool false))
    then (<[fresh (dom h1) := zeros (2%nat :: shape e)]> h1,
          Ok (RTuple out (fresh (dom h1))))
    else (h1, Ok (RArray out)).
Proof.
  intros Hp Hdim Hwf HN e out h1.
  unfold eulerian_persistence, mbind, StateErr_bind, load, lift, np_repeat.
  rewrite Hp. unfold getitem_newaxis_2.
  destruct (Nat.ltb_spec (length (shape p)) 2); [lia|].
  unfold mbind, StateErr_bind, lift. rewrite repeat_axis0_view by done.
  unfold alloc. fold e. fold out. fold h1.
  destruct (truthy _); cbn [negb]; [|done].
  unfold load. subst h1. rewrite lookup_insert_eq. done.
Qed.

(** C1. For every 2D field F of shape (m, n), every velocity and every
    numTimesteps N >= 1, [eulerian_persistence] returns a new array of
    exactly N fields, each equal to F, and leaves every array of the heap,
    the input field among them, as it was.  Without a request for the
    displacement the array is the whole return value. *)
Theorem eulerian_persistence_replicates
    (h : heap) (precip velocity : loc) (N : Z) (kw : kwargs_t)
    (F : ndarray) (m n : nat) :
  h !! precip = Some F → shape F = [m; n] → wf F → 1 ≤ N →
  ∃ h' r out E,
    eulerian_persistence precip velocity N kw h = (h', Ok r) ∧
    extrapolated r = Some out ∧
    (truthy (dict_get kw "return_displacement" (VBool false)) = false →
     r = RArray out) ∧
    h !! out = None ∧
    h' !! out = Some E ∧
    shape E = [Z.to_nat N; m; n] ∧
    (∀ t, (t < Z.to_nat N)%nat → getitem E t = Some F) ∧
    (∀ t, (Z.to_nat N ≤ t)%nat → getitem E t = None) ∧
    h' !! precip = Some F ∧
    (∀ l a, h !! l = Some a → h' !! l = Some a).
Proof.
  intros Hp Hsh Hwf HN.
  pose proof (eulerian_persistence_run h precip velocity N kw F Hp) as Hrun.
  rewrite Hsh in Hrun. specialize (Hrun ltac:(simpl; lia) Hwf ltac:(lia)).
  cbv zeta in Hrun. rewrite <- Hsh in Hrun.
  set (e := {| shape := Z.to_nat N :: shape F;
               data := mjoin (replicate (Z.to_nat N) (data F)) |}) in *.
  set (out := fresh (dom h)) in *.
  assert (Hget : ∀ t, getitem e t = if (t <? Z.to_nat N)%nat then Some F else None)
    by (intros t; by apply getitem_copies).
  assert (Hlt : ∀ t, (t < Z.to_nat N)%nat → getitem e t = Some F).
  { intros t Ht. rewrite Hget. by destruct (Nat.ltb_spec t (Z.to_nat N)); [|lia]. }
  assert (Hge : ∀ t, (Z.to_nat N ≤ t)%nat → getitem e t = None).
  { intros t Ht. rewrite Hget. by destruct (Nat.ltb_spec t (Z.to_nat N)); [lia|]. }
  assert (Hshe : shape e = [Z.to_nat N; m; n]) by (cbn; by rewrite Hsh).
  destruct (truthy _) eqn:Htr.
  - eexists _, _, out, e. split; [exact Hrun|].
    repeat split; try done.
    + apply fresh_lookup.
    + apply alloc_preserves. apply lookup_insert_eq.
    + by do 2 apply alloc_preserves.
    + intros l a Hl. by do 2 apply alloc_preserves.
  - eexists _, _, out, e. split; [exact Hrun|].
    repeat split; try done.
    + apply fresh_lookup.
    + apply lookup_insert_eq.
    + by apply alloc_preserves.
    + intros l a Hl. by apply alloc_preserves.
Qed.

(** Three timesteps of the sample field. *)
Lemma eulerian_persistence_replicates_witness :
  Sample.heap0 !! 1%positive = Some Sample.field ∧
  ∃ h' r out E,
    eulerian_persistence 1%positive 2%positive 3 ∅ Sample.heap0 = (h', Ok r) ∧
    extrapolated r = Some out ∧
    (truthy (dict_get ∅ "return_displacement" (VBool false)) = false →
     r = RArray out) ∧
    Sample.heap0 !! out = None ∧
    h' !! out = Some E ∧
    shape E = [Z.to_nat 3; 2%nat; 2%nat] ∧
    (∀ t, (t < Z.to_nat 3)%nat → getitem E t = Some Sample.field) ∧
    (∀ t, (Z.to_nat 3 ≤ t)%nat → getitem E t = None) ∧
    h' !! 1%positive = Some Sample.field ∧
    (∀ l a, Sample.heap0 !! l = Some a → h' !! l = Some a).
Proof.
  split; [reflexivity|].
  apply (eulerian_persistence_replicates Sample.heap0 1%positive 2%positive 3 ∅
           Sample.field 2 2);
    [reflexivity | reflexivity | reflexivity | lia].
Defined.



(** C8. The result of [eulerian_persistence] does not depend on the
    velocity: not on which array is passed, and not on what the array
    passed holds.  Two calls that differ in the velocity only return equal
    values and leave equal heaps (but for the velocity array itself). *)
Theorem eulerian_persistence_ignores_velocity
    (h : heap) (precip velocity : loc) (V1 V2 : ndarray) (N : Z)
    (kw : kwargs_t) :
  (∀ velocity', eulerian_persistence precip velocity N kw h
                = eulerian_persistence precip velocity' N kw h) ∧
  (velocity ≠ precip →
   let r1 := eulerian_persistence precip velocity N kw (<[velocity := V1]> h) in
   let r2 := eulerian_persistence precip velocity N kw (<[velocity := V2]> h) in
   r1.2 = r2.2 ∧ ∀ l, l ≠ velocity → r1.1 !! l = r2.1 !! l).
Proof.
  split; [done|]. intros Hne. cbv zeta.
  assert (Hdom : ∀ (g : heap), dom (<[velocity := V1]> g) = dom (<[velocity := V2]> g))
    by (intros g; by rewrite !dom_insert_L).
  assert (Hins : ∀ (g1 g2 : heap) k a l,
             g1 !! l = g2 !! l → <[k := a]> g1 !! l = <[k := a]> g2 !! l).
  { intros g1 g2 k a l Hl. destruct (decide (k = l)) as [->|].
    - by rewrite !lookup_insert_eq.
    - by rewrite !lookup_insert_ne. }
  assert (Hbase : ∀ l, l ≠ velocity →
             <[velocity := V1]> h !! l = <[velocity := V2]> h !! l)
    by (intros l Hl; by rewrite !lookup_insert_ne).
  unfold eulerian_persistence, mbind, StateErr_bind, load.
  rewrite !lookup_insert_ne by done.
  destruct (h !! precip) as [p|]; [|by split].
  unfold lift. destruct (getitem_newaxis_2 p) as [view|]; [|by split].
  unfold np_repeat, mbind, StateErr_bind, lift.
  destruct (repeat_axis0 view N) as [e|]; [|by split].
  unfold alloc. rewrite (Hdom h).
  set (out := fresh (dom (<[velocity := V2]> h))).
  destruct (negb _).
  - split; [done|]. intros l Hl. by apply Hins, Hbase.
  - unfold load. rewrite !lookup_insert_eq.
    unfold np_zeros, alloc, mbind, StateErr_bind, mret, StateErr_ret.
    rewrite !dom_insert_L.
    split; [done|]. intros l Hl. by apply Hins, Hins, Hbase.
Qed.

(** Two different arrays behind the velocity reference. *)
Lemma eulerian_persistence_ignores_velocity_witness :
  2%positive ≠ 1%positive ∧
  let r1 := eulerian_persistence 1%positive 2%positive 3 ∅
              (<[2%positive := Sample.still]> Sample.heap0) in
  let r2 := eulerian_persistence 1%positive 2%positive 3 ∅
              (<[2%positive := Sample.field]> Sample.heap0) in
  r1.2 = r2.2 ∧ ∀ l, l ≠ 2%positive → r1.1 !! l = r2.1 !! l.
Proof.
  split; [discriminate|].
  apply (proj2 (eulerian_persistence_ignores_velocity Sample.heap0 1%positive
                  2%positive Sample.still Sample.field 3 ∅)).
  discriminate.
Defined.

(** C9. Keyword options other than [return_displacement] are ignored by
    [eulerian_persistence]: adding any of them to the call changes neither
    the returned value nor the heap, and so raises no error that the call
    without them does not raise. *)
Theorem eulerian_persistence_ignores_other_options
    (h : heap) (precip velocity : loc) (N : Z) (kw extra : kwargs_t) :
  extra !! "return_displacement" = None →
  eulerian_persistence precip velocity N (extra ∪ kw) h
  = eulerian_persistence precip velocity N kw h.
Proof.
  intros Hextra. unfold eulerian_persistence, dict_get.
  by rewrite (lookup_union_r extra kw _ Hextra).
Qed.

(** Two options that [eulerian_persistence] does not know. *)
Lemma eulerian_persistence_ignores_other_options_witness :
  eulerian_persistence 1%positive 2%positive 3
    (<["outval" := VInt 0]> (<["n_iter" := VStr "three"]> ∅)
       ∪ Sample.with_displacement) Sample.heap0
  = eulerian_persistence 1%positive 2%positive 3 Sample.with_displacement
      Sample.heap0.
Proof.
  apply (eulerian_persistence_ignores_other_options Sample.heap0 1%positive
           2%positive 3 Sample.with_displacement
           (<["outval" := VInt 0]> (<["n_iter" := VStr "three"]> ∅))).
  reflexivity.
Defined.

(** ** The registry *)

Lemma lower_ascii_idemp (c : ascii) :
  Str.lower_ascii (Str.lower_ascii c) = Str.lower_ascii c.
Proof. by destruct c as [[] [] [] [] [] [] [] []]. Qed.

Lemma lower_idemp (s : string) : Str.lower (Str.lower s) = Str.lower s.
Proof.
  induction s as [|c s IH]; [done|].
  cbn [Str.lower]. by rewrite lower_ascii_idemp, IH.
Qed.

(** A lookup reads the dictionary and leaves it as it is. *)
Lemma get_method_state (name : key) (d : Dict.t callable) :
  (get_method name d).1 = d.
Proof.
  unfold get_method, try_except_KeyError, mbind, StateErr_bind, get_state,
    lift, raise.
  by destruct (Dict.getitem d _) as [f|[]].
Qed.

(** The dictionary after the three assignments of the module. *)
Lemma registry_contents :
  _extrapolation_methods =
  [(KStr "eulerian", Fun_kwargs eulerian_persistence);
   (KStr "semilagrangian", Fun_options Semilagrangian.extrapolate);
   (KNone, Fun_kwargs _do_nothing)].
Proof. reflexivity. Qed.

(** The lookup of a key that is none of the three registered keys. *)
Lemma get_method_unknown (k : key) :
  k ≠ KStr "eulerian" → k ≠ KStr "semilagrangian" → k ≠ KNone →
  Dict.getitem _extrapolation_methods k = Raise (KeyError k).
Proof.
  intros H1 H2 H3. rewrite registry_contents.
  unfold Dict.getitem. cbn [Dict.lookup].
  repeat case_decide; congruence.
Qed.




(** C5. The lookup is case-insensitive for strings: [get_method] on a
    string is [get_method] on the string in lower case, and every
    letter-case variant of "eulerian" and of "semilagrangian" resolves to
    the function registered under that name. *)
Theorem get_method_case_insensitive (s : string) :
  get_method (KStr s) = get_method (KStr (Str.lower s)) ∧
  (Str.lower s = "eulerian" →
   get_method (KStr s) _extrapolation_methods
   = (_extrapolation_methods, Ok (Fun_kwargs eulerian_persistence))) ∧
  (Str.lower s = "semilagrangian" →
   get_method (KStr s) _extrapolation_methods
   = (_extrapolation_methods, Ok (Fun_options Semilagrangian.extrapolate))).
Proof.
  split; [|split].
  - unfold get_method. cbn [isinstance_str Interface.lower].
    by rewrite lower_idemp.
  - intros Hs. unfold get_method. cbn [isinstance_str Interface.lower].
    by rewrite Hs.
  - intros Hs. unfold get_method. cbn [isinstance_str Interface.lower].
    by rewrite Hs.
Qed.

(** Mixed-case spellings of the two registered names. *)
Lemma get_method_case_insensitive_witness :
  get_method (KStr "EuLeRiAn") _extrapolation_methods
  = (_extrapolation_methods, Ok (Fun_kwargs eulerian_persistence)) ∧
  get_method (KStr "SEMILagrangian") _extrapolation_methods
  = (_extrapolation_methods, Ok (Fun_options Semilagrangian.extrapolate)).
Proof.
  split.
  - apply (proj1 (proj2 (get_method_case_insensitive "EuLeRiAn"))).
    reflexivity.
  - apply (proj2 (proj2 (get_method_case_insensitive "SEMILagrangian"))).
    reflexivity.
Defined.

(** C6. Resolving None succeeds: [get_method(None)] returns [_do_nothing],
    which for every field, velocity, step count and options returns None
    without raising and without touching the heap. *)
Theorem get_method_none :
  get_method KNone _extrapolation_methods
  = (_extrapolation_methods, Ok (Fun_kwargs _do_nothing)) ∧
  ∀ (precip velocity : loc) (N : Z) (kw : kwargs_t) (h : heap),
    _do_nothing precip velocity N kw h = (h, Ok RNone).
Proof. split; reflexivity. Qed.

(** The three registered functions are three different functions. *)
Lemma registered_distinct :
  Fun_kwargs eulerian_persistence ≠ Fun_options Semilagrangian.extrapolate ∧
  Fun_kwargs eulerian_persistence ≠ Fun_kwargs _do_nothing ∧
  Fun_options Semilagrangian.extrapolate ≠ Fun_kwargs _do_nothing.
Proof.
  split; [discriminate|]. split; [|discriminate].
  intros Heq. injection Heq as Heq.
  apply (f_equal (λ f, (f 1%positive 1%positive 0 ∅ ∅).2)) in Heq.
  discriminate Heq.
Qed.

(** C10. The registry is exhaustive and read-only under lookup: for every
    name, [get_method] raises or returns one of the three registered
    functions (which are three different functions), and no call of
    [get_method] changes the dictionary, whatever it holds. *)
Theorem get_method_exhaustive_read_only (name : key) :
  ((∃ e, (get_method name _extrapolation_methods).2 = Raise e) ∨
   (get_method name _extrapolation_methods).2
     = Ok (Fun_kwargs eulerian_persistence) ∨
   (get_method name _extrapolation_methods).2
     = Ok (Fun_options Semilagrangian.extrapolate) ∨
   (get_method name _extrapolation_methods).2
     = Ok (Fun_kwargs _do_nothing)) ∧
  (Fun_kwargs eulerian_persistence ≠ Fun_options Semilagrangian.extrapolate ∧
   Fun_kwargs eulerian_persistence ≠ Fun_kwargs _do_nothing ∧
   Fun_options Semilagrangian.extrapolate ≠ Fun_kwargs _do_nothing) ∧
  ∀ (name' : key) (d : Dict.t callable), (get_method name' d).1 = d.
Proof.
  split; [|split; [exact registered_distinct | exact get_method_state]].
  set (k := if isinstance_str name then Interface.lower name else name).
  destruct (decide (k = KStr "eulerian")) as [He|He].
  { right. left. unfold get_method. fold k. by rewrite He. }
  destruct (decide (k = KStr "semilagrangian")) as [Hs|Hs].
  { right. right. left. unfold get_method. fold k. by rewrite Hs. }
  destruct (decide (k = KNone)) as [Hn|Hn].
  { right. right. right. unfold get_method. fold k. by rewrite Hn. }
  left. eexists. unfold get_method. fold k.
  unfold try_except_KeyError, mbind, StateErr_bind, get_state, lift, raise.
  by rewrite get_method_unknown.
Qed.

(** ** The semi-Lagrangian extrapolator at rest *)

Section at_rest.
Import Semilagrangian.
Local Open Scope Qc_scope.
Variables rows cols : nat.





















End at_rest.

(** ** Calls of the semi-Lagrangian extrapolator *)






(** ** The step count *)





(** * Further properties of the interface module *)

(** ** Eulerian persistence on any heap *)

(** The array that [np.repeat] builds from the view of [p]. *)
Lemma repeat_axis0_view_gen (p : ndarray) (N : Z) :
  0 ≤ N →
  repeat_axis0 {| shape := 1%nat :: shape p; data := data p |} N =
  Ok {| shape := Z.to_nat N :: shape p;
        data := mjoin (replicate (Z.to_nat N)
                         (take (size_of (shape p)) (data p))) |}.
Proof.
  intros HN. unfold repeat_axis0. cbn [shape data].
  destruct (Z.ltb_spec N 0); [lia|].
  f_equal. f_equal.
  - f_equal. lia.
  - cbn [seq fmap list_fmap mjoin list_join]. rewrite app_nil_r. unfold block.
    by rewrite Nat.mul_0_l, drop_0.
Qed.

(** X1. [eulerian_persistence] takes a field of any number of dimensions
    from two on: for a well-formed array p and N >= 0 the result has the
    shape of p behind a new axis of length N, and its sub-array at t is p
    for t < N and out of range from N on. *)
Theorem eulerian_persistence_any_rank
    (h : heap) (precip velocity : loc) (N : Z) (kw : kwargs_t) (p : ndarray) :
  h !! precip = Some p → (2 ≤ length (shape p))%nat → wf p → 0 ≤ N →
  ∃ h' r out E,
    eulerian_persistence precip velocity N kw h = (h', Ok r) ∧
    extrapolated r = Some out ∧
    h' !! out = Some E ∧
    shape E = Z.to_nat N :: shape p ∧
    ∀ t, getitem E t = if (t <? Z.to_nat N)%nat then Some p else None.
Proof.
  intros Hp Hdim Hwf HN.
  pose proof (eulerian_persistence_run h precip velocity N kw p Hp Hdim Hwf HN)
    as Hrun. cbv zeta in Hrun.
  set (E := {| shape := Z.to_nat N :: shape p;
               data := mjoin (replicate (Z.to_nat N) (data p)) |}) in *.
  assert (Hget : ∀ t, getitem E t
                      = if (t <? Z.to_nat N)%nat then Some p else None)
    by (intros t; by apply getitem_copies).
  destruct (truthy _);
    eexists _, _, (fresh (dom h)), E; (split; [exact Hrun|]);
    (split; [done|]); (split; [|done]).
  - apply alloc_preserves, lookup_insert_eq.
  - apply lookup_insert_eq.
Qed.

(** Two timesteps of a three-dimensional array. *)
Lemma eulerian_persistence_any_rank_witness :
  ∃ h' r out E,
    eulerian_persistence 2%positive 1%positive 2 ∅ Sample.heap0 = (h', Ok r) ∧
    extrapolated r = Some out ∧
    h' !! out = Some E ∧
    shape E = Z.to_nat 2 :: [2; 2; 2]%nat ∧
    ∀ t, getitem E t = if (t <? Z.to_nat 2)%nat then Some Sample.still else None.
Proof.
  apply (eulerian_persistence_any_rank Sample.heap0 2%positive 1%positive 2 ∅
           Sample.still); [reflexivity | simpl; lia | reflexivity | lia].
Defined.

(** X2. A field of fewer than two dimensions is refused by the indexing
    [precip[np.newaxis, :, :]]: the call raises IndexError whatever the step
    count (a negative one too) and the options are, and allocates
    nothing. *)
Theorem eulerian_persistence_too_few_dimensions
    (h : heap) (precip velocity : loc) (N : Z) (kw : kwargs_t) (p : ndarray) :
  h !! precip = Some p → (length (shape p) < 2)%nat →
  eulerian_persistence precip velocity N kw h
  = (h, Raise (IndexError "too many indices for array")).
Proof.
  intros Hp Hdim.
  unfold eulerian_persistence, mbind, StateErr_bind, load, lift.
  rewrite Hp. unfold getitem_newaxis_2.
  by destruct (Nat.ltb_spec (length (shape p)) 2); [|lia].
Qed.

(** A one-dimensional array and a negative step count. *)
Lemma eulerian_persistence_too_few_dimensions_witness :
  eulerian_persistence 3%positive 2%positive (-1) Sample.with_displacement
    Fixture.heap1
  = (Fixture.heap1, Raise (IndexError "too many indices for array")).
Proof.
  apply (eulerian_persistence_too_few_dimensions Fixture.heap1 3%positive
           2%positive (-1) Sample.with_displacement Fixture.profile);
    [reflexivity | simpl; lia].
Defined.

(** X3. [eulerian_persistence] never writes to an array that exists: for
    all arguments, every array of the heap is the same after the call; and
    a call that raises leaves the heap exactly as it was. *)
Theorem eulerian_persistence_heap_safe
    (h : heap) (precip velocity : loc) (N : Z) (kw : kwargs_t) :
  (∀ l a, h !! l = Some a →
          (eulerian_persistence precip velocity N kw h).1 !! l = Some a) ∧
  (∀ e, (eulerian_persistence precip velocity N kw h).2 = Raise e →
        (eulerian_persistence precip velocity N kw h).1 = h).
Proof.
  unfold eulerian_persistence, mbind, StateErr_bind, load, lift.
  destruct (h !! precip) as [p|]; [|by split].
  destruct (getitem_newaxis_2 p) as [view|]; [|by split].
  unfold np_repeat, mbind, StateErr_bind, lift.
  destruct (repeat_axis0 view N) as [e|]; [|by split].
  unfold alloc. destruct (negb _).
  - split; [|discriminate]. intros l a Hl. by apply alloc_preserves.
  - unfold load. rewrite lookup_insert_eq.
    unfold np_zeros, alloc, mbind, StateErr_bind, mret, StateErr_ret.
    split; [|discriminate]. intros l a Hl. by do 2 apply alloc_preserves.
Qed.

(** X4. The option [return_displacement] is tested for its truth value: on
    a field of at least two dimensions and a step count that is not
    negative, the call returns the pair of arrays exactly when the value is
    truthy, and the array alone otherwise (the default, None, 0 and the
    empty string among them). *)
Theorem eulerian_persistence_return_shape
    (h : heap) (precip velocity : loc) (N : Z) (kw : kwargs_t) (p : ndarray) :
  h !! precip = Some p → (2 ≤ length (shape p))%nat → 0 ≤ N →
  (truthy (dict_get kw "return_displacement" (VBool false)) = true →
   ∃ out d, (eulerian_persistence precip velocity N kw h).2
            = Ok (RTuple out d)) ∧
  (truthy (dict_get kw "return_displacement" (VBool false)) = false →
   ∃ out, (eulerian_persistence precip velocity N kw h).2 = Ok (RArray out)).
Proof.
  intros Hp Hdim HN.
  unfold eulerian_persistence, mbind, StateErr_bind, load, lift, np_repeat.
  rewrite Hp. unfold getitem_newaxis_2.
  destruct (Nat.ltb_spec (length (shape p)) 2); [lia|].
  unfold mbind, StateErr_bind, lift. rewrite repeat_axis0_view_gen by done.
  unfold alloc. split; intros ->; cbn [negb].
  - unfold load. rewrite lookup_insert_eq. by eexists _, _.
  - by eexists.
Qed.

(** The string "False" is truthy: the call returns the pair. *)
Lemma eulerian_persistence_return_shape_witness :
  ∃ out d, (eulerian_persistence 1%positive 2%positive 3 Fixture.string_false
              Sample.heap0).2 = Ok (RTuple out d).
Proof.
  apply (proj1 (eulerian_persistence_return_shape Sample.heap0 1%positive
                  2%positive 3 Fixture.string_false Sample.field
                  eq_refl ltac:(simpl; lia) ltac:(lia))).
  reflexivity.
Defined.

(** X5. The extrapolated fields do not depend on the options at all: two
    calls that differ in the keyword arguments only raise the same error,
    or return the extrapolated fields in the same new array with the same
    contents. *)
Theorem eulerian_persistence_fields_ignore_options
    (h : heap) (precip velocity : loc) (N : Z) (kw kw' : kwargs_t) :
  match (eulerian_persistence precip velocity N kw h).2,
        (eulerian_persistence precip velocity N kw' h).2 with
  | Ok r, Ok r' =>
      ∃ out, extrapolated r = Some out ∧ extrapolated r' = Some out ∧
             h !! out = None ∧
             (eulerian_persistence precip velocity N kw h).1 !! out
             = (eulerian_persistence precip velocity N kw' h).1 !! out
  | Raise e, Raise e' => e = e'
  | _, _ => False
  end.
Proof.
  unfold eulerian_persistence, mbind, StateErr_bind, load, lift.
  destruct (h !! precip) as [p|]; [|done].
  destruct (getitem_newaxis_2 p) as [view|]; [|done].
  unfold np_repeat, mbind, StateErr_bind, lift.
  destruct (repeat_axis0 view N) as [e|]; [|done].
  unfold alloc.
  set (out := fresh (dom h)).
  assert (Hnew : ∀ a, <[fresh (dom (<[out := e]> h)) := a]> (<[out := e]> h)
                      !! out = Some e)
    by (intros a; apply alloc_preserves, lookup_insert_eq).
  destruct (negb (truthy (dict_get kw _ _))),
           (negb (truthy (dict_get kw' _ _)));
    unfold load; rewrite ?lookup_insert_eq;
    unfold np_zeros, alloc, mbind, StateErr_bind, mret, StateErr_ret;
    exists out; cbn [extrapolated fst snd];
    rewrite ?Hnew, ?lookup_insert_eq; repeat split; apply fresh_lookup.
Qed.

(** The arrays that [eulerian_persistence] builds are well-formed. *)
Lemma wf_copies (p : ndarray) (N : nat) :
  wf p →
  wf {| shape := N :: shape p;
        data := mjoin (replicate N (take (size_of (shape p)) (data p))) |}.
Proof.
  unfold wf. cbn [shape data]. intros Hwf.
  rewrite <- Hwf, take_ge by done.
  change (size_of (N :: shape p)) with (N * size_of (shape p))%nat.
  rewrite <- Hwf. induction N as [|N IH]; [done|].
  change (length (data p ++ mjoin (replicate N (data p)))
          = (S N * length (data p))%nat).
  rewrite length_app, IH. lia.
Qed.

Lemma wf_zeros (sh : list nat) : wf (zeros sh).
Proof. unfold wf, zeros. cbn [shape data]. apply length_replicate. Qed.

(** X6. [eulerian_persistence] keeps the heap well-formed: when every
    array of the heap holds as many elements as its shape says, so does
    every array of the heap after the call, the new ones included, for all
    arguments. *)
Theorem eulerian_persistence_keeps_wf
    (h : heap) (precip velocity : loc) (N : Z) (kw : kwargs_t) :
  Fixture.heap_wf h →
  Fixture.heap_wf (eulerian_persistence precip velocity N kw h).1.
Proof.
  unfold Fixture.heap_wf. intros Hh.
  unfold eulerian_persistence, mbind, StateErr_bind, load, lift.
  destruct (h !! precip) as [p|] eqn:Hp; [|done].
  assert (Hwf : wf p) by exact (Hh _ _ Hp).
  unfold getitem_newaxis_2. destruct (length (shape p) <? 2)%nat; [done|].
  unfold np_repeat, mbind, StateErr_bind, lift.
  destruct (Z.ltb_spec N 0) as [HN|HN].
  { unfold repeat_axis0. cbn [shape].
    by destruct (Z.ltb_spec N 0); [|lia]. }
  rewrite repeat_axis0_view_gen by done. unfold alloc.
  assert (Hh1 : map_Forall (λ _ a, wf a)
                  (<[fresh (dom h) :=
                      {| shape := Z.to_nat N :: shape p;
                         data := mjoin (replicate (Z.to_nat N)
                                   (take (size_of (shape p)) (data p))) |}]> h))
    by (apply map_Forall_insert_2; [by apply wf_copies | done]).
  destruct (negb _); [done|].
  unfold load. rewrite lookup_insert_eq.
  unfold np_zeros, alloc, mbind, StateErr_bind, mret, StateErr_ret.
  apply map_Forall_insert_2; [apply wf_zeros | done].
Qed.

(** The sample heap is well-formed, and stays so. *)
Lemma eulerian_persistence_keeps_wf_witness :
  Fixture.heap_wf
    (eulerian_persistence 1%positive 2%positive 3 Sample.with_displacement
       Sample.heap0).1.
Proof.
  apply (eulerian_persistence_keeps_wf Sample.heap0 1%positive 2%positive 3
           Sample.with_displacement).
  unfold Fixture.heap_wf, Sample.heap0.
  apply map_Forall_insert_2; [reflexivity|].
  apply map_Forall_insert_2; [reflexivity|].
  apply map_Forall_empty.
Defined.

(** ** Lookups in any dictionary *)

Lemma lookup_setitem_eq {V} (d : Dict.t V) (k : key) (v : V) :
  Dict.lookup (Dict.setitem d k v) k = Some v.
Proof.
  induction d as [|[k' v'] d IH]; cbn [Dict.setitem Dict.lookup].
  - by rewrite decide_True.
  - destruct (decide (k' = k)) as [->|Hne]; cbn [Dict.lookup].
    + by rewrite decide_True.
    + by rewrite decide_False.
Qed.

Lemma lookup_setitem_ne {V} (d : Dict.t V) (k k' : key) (v : V) :
  k ≠ k' → Dict.lookup (Dict.setitem d k v) k' = Dict.lookup d k'.
Proof.
  intros Hne. induction d as [|[k0 v0] d IH]; cbn [Dict.setitem Dict.lookup].
  - by rewrite decide_False.
  - destruct (decide (k0 = k)) as [->|Hne0]; cbn [Dict.lookup].
    + by rewrite !decide_False.
    + by rewrite IH.
Qed.

(** What [get_method] returns, by the lookup of the normalized name. *)
Lemma get_method_result (name : key) (d : Dict.t callable) :
  (get_method name d).2 =
  match Dict.lookup d (Interface.lower name) with
  | Some f => Ok f
  | None =>
      Raise (ValueError ("Unknown method " +:+ str_key (Interface.lower name)
                         +:+ Str.newline +:+ "The available methods are:"
                         +:+ str_list (Dict.keys d)))
  end.
Proof.
  assert (Hnorm : (if isinstance_str name then Interface.lower name else name)
                  = Interface.lower name) by by destruct name.
  unfold get_method. rewrite Hnorm.
  unfold try_except_KeyError, mbind, StateErr_bind, get_state, lift, raise,
    Dict.getitem.
  by destruct (Dict.lookup d _).
Qed.

(** X7. A function registered under a string key that is not in lower case
    cannot be reached by any string name: whatever the dictionary holds,
    such an assignment changes the function no string resolves to. *)
Theorem get_method_mixed_case_key_unreachable
    (d : Dict.t callable) (k : string) (f : callable) :
  Str.lower k ≠ k →
  ∀ (s : string) (g : callable),
    (get_method (KStr s) (Dict.setitem d (KStr k) f)).2 = Ok g ↔
    (get_method (KStr s) d).2 = Ok g.
Proof.
  intros Hk s g. rewrite !get_method_result. cbn [Interface.lower].
  rewrite lookup_setitem_ne.
  - destruct (Dict.lookup d _); [done | split; discriminate].
  - intros [= Heq]. apply Hk. by rewrite Heq, lower_idemp.
Qed.

(** A second registration of the no-op under "Eulerian". *)
Lemma get_method_mixed_case_key_unreachable_witness :
  Str.lower "Eulerian" ≠ "Eulerian" ∧
  ((get_method (KStr "Eulerian")
      (Dict.setitem _extrapolation_methods (KStr "Eulerian")
         (Fun_kwargs _do_nothing))).2 = Ok (Fun_kwargs eulerian_persistence) ↔
   (get_method (KStr "Eulerian") _extrapolation_methods).2
   = Ok (Fun_kwargs eulerian_persistence)).
Proof.
  split; [discriminate|].
  apply (get_method_mixed_case_key_unreachable _extrapolation_methods
           "Eulerian" (Fun_kwargs _do_nothing)).
  discriminate.
Defined.

(** X8. Registration and lookup agree: after [d[k] = f], where k is None
    or the lower-case form of a string name, [get_method] resolves the name
    (in any letter case) to f and leaves the dictionary as assigned,
    whatever the dictionary held before. *)
Theorem get_method_after_setitem
    (d : Dict.t callable) (name : key) (f : callable) :
  get_method name (Dict.setitem d (Interface.lower name) f)
  = (Dict.setitem d (Interface.lower name) f, Ok f).
Proof.
  rewrite (surjective_pairing (get_method _ _)).
  by rewrite get_method_state, get_method_result, lookup_setitem_eq.
Qed.

(** X9. No string selects the no-op: for every string, "None" and "none"
    among them, [get_method] on the registry of the module raises or returns
    one of the two extrapolators, never [_do_nothing]. *)
Theorem get_method_string_never_noop (s : string) :
  (get_method (KStr s) _extrapolation_methods).2 ≠ Ok (Fun_kwargs _do_nothing).
Proof.
  rewrite get_method_result, registry_contents.
  cbn [Interface.lower Dict.lookup].
  destruct registered_distinct as (_ & H12 & H23).
  repeat case_decide; try discriminate; intros [= Heq]; congruence.
Qed.

(** X10. The KeyError of the failed lookup never leaves [get_method]: for
    every name and every dictionary, an error raised by [get_method] is a
    ValueError whose message starts with "Unknown method ". *)
Theorem get_method_raises_only_ValueError
    (name : key) (d : Dict.t callable) (e : exn) :
  (get_method name d).2 = Raise e →
  ∃ rest, e = ValueError ("Unknown method " +:+ rest).
Proof.
  rewrite get_method_result.
  destruct (Dict.lookup d _); [discriminate|].
  intros [= <-]. by eexists.
Qed.

(** The error for the name 7 in the registry of the module. *)
Lemma get_method_raises_only_ValueError_witness :
  ∃ rest,
    ValueError ("Unknown method 7" +:+ Str.newline
                +:+ "The available methods are:"
                +:+ "['eulerian', 'semilagrangian', None]")
    = ValueError ("Unknown method " +:+ rest).
Proof.
  apply (get_method_raises_only_ValueError (KInt 7) _extrapolation_methods).
  reflexivity.
Defined.
